(** * The training-loop controller of [main_CNN2D.py]

    A shallow embedding of [main] (src/models/T3_style_lim100/src/main_CNN2D.py):
    the seeding prologue, the epoch loop inside the [try] block with its
    [KeyboardInterrupt] handler, and the reporting loop that follows.

    Python integers are [Z], Python floats are IEEE binary64 values
    ([PrimFloat.float]), the files written below [log_dir] are a finite map from
    file name to the model state they hold, and an unbound local variable is
    [None]. *)

From Stdlib Require Import ZArith Floats Ascii.
From stdpp Require Import gmap strings pretty list.

Open Scope Z_scope.

(** ** Format specification [05] and the names built with it *)

Module PyFormat.

(** [k] copies of the fill character ['0']. *)
Fixpoint zeros (k : nat) : string :=
  match k with
  | O => ""
  | S k' => String "0"%char (zeros k')
  end.

(** Left padding of a digit string up to [width] characters. *)
Definition zfill (width : nat) (digits : string) : string :=
  zeros (width - String.length digits) +:+ digits.

(** [f'{n:05}'] for an integer [n]: minimum width 5, zero fill, and the sign
    (only shown when negative) placed before the fill. *)
Definition format_05 (n : Z) : string :=
  if n <? 0 then "-" +:+ zfill 4 (pretty (Z.abs_N n))
  else zfill 5 (pretty (Z.to_N n)).

(** [f'epoch{n:05}.pt'], the file name joined to [log_dir] on lines 73, 80
    and 88. *)
Definition epoch_pt (n : Z) : string := "epoch" +:+ format_05 n +:+ ".pt".

(** A zero-filled field with its leading zeros taken off again; what is left
    identifies the number that was formatted. *)
Fixpoint strip_fill (s : string) : string :=
  match s with
  | String c s' => if bool_decide (c = "0"%char) then strip_fill s' else s
  | "" => ""
  end.

End PyFormat.

(** ** Lines 27-31: device selection and seeding *)

Module Seeding.

(** The two kinds of object that meet in the guard on line 30. *)
Inductive pyobj : Type :=
  | torch_device (type : string)
  | py_str (s : string).

(** [a == b].  A [torch.device] compares by content with another
    [torch.device] and a [str] with another [str]; across the two classes
    neither side accepts the other operand, and [==] answers [False]. *)
Definition py_eq (a b : pyobj) : bool :=
  match a, b with
  | torch_device t1, torch_device t2 => bool_decide (t1 = t2)
  | py_str s1, py_str s2 => bool_decide (s1 = s2)
  | _, _ => false
  end.

(** The calls that seed a random-number generator. *)
Inductive seed_call : Type :=
  | np_random_seed (s : Z)
  | torch_manual_seed (s : Z)
  | torch_cuda_manual_seed (s : Z).

(** Line 27. *)
Definition device (cuda_is_available : bool) : pyobj :=
  if cuda_is_available then torch_device "cuda" else torch_device "cpu".

(** The seed each generator has been given, [None] as long as no call has
    seeded it. *)
Record generators : Type := {
  numpy_rng : option Z;
  torch_cpu_rng : option Z;
  torch_cuda_rng : option Z
}.

Definition unseeded : generators :=
  {| numpy_rng := None; torch_cpu_rng := None; torch_cuda_rng := None |}.

Inductive error : Type := ValueError.

(** [np.random.seed(seed)]: an integer seed must lie between 0 and
    [2**32 - 1]; any other raises [ValueError] and seeds nothing. *)
Definition np_random_seed_call (seed : Z) (g : generators) : generators + error :=
  if (0 <=? seed) && (seed <? 2 ^ 32) then
    inl {| numpy_rng := Some seed; torch_cpu_rng := torch_cpu_rng g;
           torch_cuda_rng := torch_cuda_rng g |}
  else inr ValueError.

(** [torch.manual_seed(seed)]: seeds the CPU generator and hands the seed on
    to the generators of the CUDA devices, which is silently skipped when
    CUDA is not available.  Line 29 is reached only with a seed that line 28
    has accepted, and every such seed is within the range this call takes. *)
Definition torch_manual_seed_call (cuda_is_available : bool) (seed : Z)
    (g : generators) : generators :=
  {| numpy_rng := numpy_rng g; torch_cpu_rng := Some seed;
     torch_cuda_rng := if cuda_is_available then Some seed else torch_cuda_rng g |}.

(** [torch.cuda.manual_seed(seed)]: seeds the generator of the current CUDA
    device, silently skipped when CUDA is not available. *)
Definition torch_cuda_manual_seed_call (cuda_is_available : bool) (seed : Z)
    (g : generators) : generators :=
  {| numpy_rng := numpy_rng g; torch_cpu_rng := torch_cpu_rng g;
     torch_cuda_rng := if cuda_is_available then Some seed else torch_cuda_rng g |}.

(** What lines 28-31 leave: the seeding calls made, in order, the state of
    the generators, and the exception that ended them, if one did. *)
Record seeding : Type := {
  calls : list seed_call;
  rng : generators;
  raised : option error
}.

(** Lines 28-31. *)
Definition seed_all (cuda_is_available : bool) (seed : Z) : seeding :=
  match np_random_seed_call seed unseeded with
  | inr x => {| calls := [np_random_seed seed]; rng := unseeded; raised := Some x |}
  | inl g1 =>
      let g2 := torch_manual_seed_call cuda_is_available seed g1 in
      if py_eq (device cuda_is_available) (py_str "cuda") then
        {| calls := [np_random_seed seed; torch_manual_seed seed;
                     torch_cuda_manual_seed seed];
           rng := torch_cuda_manual_seed_call cuda_is_available seed g2;
           raised := None |}
      else
        {| calls := [np_random_seed seed; torch_manual_seed seed];
           rng := g2; raised := None |}
  end.

(** The reading under which only the NumPy generator and the CPU generator
    of torch end up seeded. *)
Definition only_numpy_and_cpu_seeded (r : seeding) (seed : Z) : Prop :=
  numpy_rng (rng r) = Some seed /\ torch_cpu_rng (rng r) = Some seed /\
  torch_cuda_rng (rng r) = None.

End Seeding.

(** ** The early-stopping policy *)

Module Policy.

(** Modelled from the spec: the class [EarlyStopping] of [utils/evaluate.py]
    is not among the sources; [main] only constructs it (line 66), calls it
    (line 73) and reads its [early_stop] flag (line 74).  The fields and the
    decision rule follow section 4.1 of the specification; [min_delta] is 0
    because line 66 passes none. *)
Record EarlyStopping : Type := {
  patience : Z;
  min_delta : float;
  counter : Z;
  best_score : float;
  early_stop : bool
}.

Definition init (patience : Z) : EarlyStopping :=
  {| patience := patience; min_delta := 0%float; counter := 0;
     best_score := infinity; early_stop := false |}.

Inductive verdict : Type := Continue | Stop.

(** [current_score < best_score - min_delta], on binary64 values. *)
Definition improved (es : EarlyStopping) (current_score : float) : bool :=
  PrimFloat.ltb current_score (PrimFloat.sub (best_score es) (min_delta es)).

(** Modelled from the spec: one evaluation of the policy (section 4.1). *)
Definition evaluate (es : EarlyStopping) (current_score : float)
  : EarlyStopping * verdict :=
  if improved es current_score then
    ({| patience := patience es; min_delta := min_delta es; counter := 0;
        best_score := current_score; early_stop := early_stop es |}, Continue)
  else
    let c := counter es + 1 in
    if patience es <=? c then
      ({| patience := patience es; min_delta := min_delta es; counter := c;
          best_score := best_score es; early_stop := true |}, Stop)
    else
      ({| patience := patience es; min_delta := min_delta es; counter := c;
          best_score := best_score es; early_stop := false |}, Continue).

(** The policy fed a sequence of scores the way the loop of [main] feeds it:
    one evaluation per score, none after the first [Stop].  The answers are
    returned in order. *)
Fixpoint feed (es : EarlyStopping) (scores : list float)
  : EarlyStopping * list verdict :=
  match scores with
  | [] => (es, [])
  | s :: rest =>
      match evaluate es s with
      | (es', Stop) => (es', [Stop])
      | (es', Continue) =>
          let '(es'', vs) := feed es' rest in (es'', Continue :: vs)
      end
  end.

(** Modelled from the spec: the call [earlystopping(loss, model, path)] of
    line 73.  Besides the evaluation above it writes the model state to the
    path it is handed: [main] holds no save statement of its own, and
    section 4.4 of the specification has a checkpoint persisted for the epoch
    unconditionally once the policy has been evaluated. *)
Definition call (es : EarlyStopping) (val_loss : float) (model : Z)
    (path : string) (files : gmap string Z) : EarlyStopping * gmap string Z :=
  (fst (evaluate es val_loss), <[path := model]> files).

End Policy.

(** ** Lines 60-112: the epoch loop, the interrupt handler, the reports *)

Module Controller.
Import PyFormat Policy.

(** The options of [cfg] that [main] reads on these lines. *)
Record Cfg : Type := {
  cfg_epoch : Z;
  cfg_patience : Z
}.

(** The statements of the loop body at which the signal can be delivered.
    Calls into collaborators are taken to return unless the signal arrives;
    a statement cut short by it leaves no effect of its own. *)
Inductive stmt : Type :=
  | at_train_model          (* line 68 *)
  | at_eval_model           (* line 70 *)
  | at_scheduler_step       (* line 71 *)
  | at_earlystopping        (* line 73 *)
  | at_early_stop_branch.   (* lines 74-81 *)

(** Where, inside the [try] block, [KeyboardInterrupt] is raised. *)
Inductive place : Type :=
  | before_loop             (* lines 61-66 *)
  | in_epoch (e : Z) (s : stmt)
  | at_done.                (* line 82 *)

#[global] Instance stmt_eq_dec : EqDecision stmt.
Proof. solve_decision. Defined.
#[global] Instance place_eq_dec : EqDecision place.
Proof. solve_decision. Defined.

(** What [main] does not decide: the loss [eval_model] returns in each epoch
    and the place, if any, at which the operator interrupts the run. *)
Record World : Type := {
  val_loss : Z -> float;
  sigint : option place
}.

(** The local variables of [main] that the control flow reads or writes.
    [model] stands for the parameter set: it counts the training passes made
    so far, so the state saved in epoch [e] is [e + 1].  [log_dir] maps a
    file name to the model state stored under it. *)
Record Locals : Type := {
  epoch : option Z;
  save_ep : option Z;
  save_model_dir : option string;
  model : Z;
  earlystopping : EarlyStopping;
  log_dir : gmap string Z
}.

Definition locals0 (cfg : Cfg) : Locals :=
  {| epoch := None; save_ep := None; save_model_dir := None; model := 0;
     earlystopping := Policy.init (cfg_patience cfg); log_dir := ∅ |}.

Definition bind_epoch (l : Locals) (e : Z) : Locals :=
  {| epoch := Some e; save_ep := save_ep l; save_model_dir := save_model_dir l;
     model := model l; earlystopping := earlystopping l; log_dir := log_dir l |}.

(** [train_model] on line 68: one more pass over the training set. *)
Definition train_model (l : Locals) : Locals :=
  {| epoch := epoch l; save_ep := save_ep l; save_model_dir := save_model_dir l;
     model := model l + 1; earlystopping := earlystopping l;
     log_dir := log_dir l |}.

Definition after_call (l : Locals) (r : EarlyStopping * gmap string Z) : Locals :=
  {| epoch := epoch l; save_ep := save_ep l; save_model_dir := save_model_dir l;
     model := model l; earlystopping := r.1; log_dir := r.2 |}.

(** [save_ep = n] followed by [save_model_dir = log_dir / f'epoch{save_ep:05}.pt']
    (lines 79-80 and 87-88). *)
Definition select (l : Locals) (n : Z) : Locals :=
  {| epoch := epoch l; save_ep := Some n; save_model_dir := Some (epoch_pt n);
     model := model l; earlystopping := earlystopping l; log_dir := log_dir l |}.

Inductive flow : Type := Next | Break | Interrupt.

Definition raised (w : World) (e : Z) (s : stmt) : bool :=
  bool_decide (sigint w = Some (in_epoch e s)).

(** Lines 68-81, one iteration with the loop variable bound to [e].
    [scheduler.step(loss/cfg.batch_size)] on line 71 acts on the optimizer
    inside [torch]; nothing that [main] reads afterwards depends on it, so it
    appears here only as a place where the signal can arrive.  Like every
    call into a collaborator it is taken to return: a loss for which it
    raises (a negative, infinite or not-a-number one) ends the run with an
    error that line 83 does not catch, and such a run is none of the runs
    described here. *)
Definition body (cfg : Cfg) (w : World) (e : Z) (l : Locals) : Locals * flow :=
  let l := bind_epoch l e in
  if raised w e at_train_model then (l, Interrupt) else
  let l := train_model l in
  if raised w e at_eval_model then (l, Interrupt) else
  let loss := val_loss w e in
  if raised w e at_scheduler_step then (l, Interrupt) else
  if raised w e at_earlystopping then (l, Interrupt) else
  let l := after_call l (Policy.call (earlystopping l) loss (model l)
                                     (epoch_pt e) (log_dir l)) in
  if raised w e at_early_stop_branch then (l, Interrupt) else
  if early_stop (earlystopping l) then (select l (e - cfg_patience cfg), Break)
  else (l, Next).

(** [for epoch in range(cfg.epoch)], with [n] iterations left and [e] the
    next value of the loop variable. *)
Fixpoint for_epoch (cfg : Cfg) (w : World) (n : nat) (e : Z) (l : Locals)
  : Locals * flow :=
  match n with
  | O => (l, Next)
  | S n' =>
      match body cfg w e l with
      | (l', Next) => for_epoch cfg w n' (e + 1) l'
      | stopped => stopped
      end
  end.

Inductive terminal : Type := STOPPING_EARLY | INTERRUPTED | DONE.

Inductive error : Type := UnboundLocalError (name : string).

(** How the [try] statement is left: in a terminal state, or with an
    exception that nothing catches. *)
Inductive ending : Type :=
  | ended (t : terminal)
  | uncaught (x : error).

(** Lines 83-88. *)
Definition except_KeyboardInterrupt (l : Locals) : Locals * ending :=
  match epoch l with
  | None => (l, uncaught (UnboundLocalError "epoch"))
  | Some e => (select l (e - 1), ended INTERRUPTED)
  end.

(** Lines 60-88. *)
Definition try_block (cfg : Cfg) (w : World) : Locals * ending :=
  if bool_decide (sigint w = Some before_loop)
  then except_KeyboardInterrupt (locals0 cfg)
  else
    match for_epoch cfg w (Z.to_nat (cfg_epoch cfg)) 0 (locals0 cfg) with
    | (l, Interrupt) => except_KeyboardInterrupt l
    | (l, f) =>
        if bool_decide (sigint w = Some at_done)
        then except_KeyboardInterrupt l
        else (l, ended (match f with Break => STOPPING_EARLY | _ => DONE end))
    end.

Inductive loader : Type := train_loader | val_loader | test_loader.

Definition phaze : list string := ["train"; "val"; "test"].

(** The arguments of one [ConfusionMatrix] call that vary (lines 102-109). *)
Record ConfusionMatrix_args : Type := {
  test_loader_arg : loader;
  model_PATH : string;
  save_name : string;
  save_dir_name : string
}.

(** Evaluation of the arguments of the call for item [idx]: the first unbound
    name met, in source order, raises. *)
Definition ConfusionMatrix (l : Locals) (idx : nat) (ld : loader)
  : ConfusionMatrix_args + error :=
  match save_model_dir l with
  | None => inr (UnboundLocalError "save_model_dir")
  | Some path =>
      match save_ep l with
      | None => inr (UnboundLocalError "save_ep")
      | Some ep =>
          inl {| test_loader_arg := ld;
                 model_PATH := path;
                 save_name := phaze !!! idx +:+ "_" +:+ format_05 ep;
                 save_dir_name :=
                   "miss_" +:+ phaze !!! idx +:+ "_" +:+ format_05 ep |}
      end
  end.

(** Lines 100-112 over the enumerated loaders: the calls whose arguments
    [main] evaluates, and the error that ended the loop, if one did.  Each
    [ConfusionMatrix] call is taken to return; were one to raise inside (on a
    checkpoint file that is missing, say), the loop would end there, so the
    calls really made are always an initial part of the ones listed. *)
Fixpoint report_loop (l : Locals) (items : list (nat * loader))
  : list ConfusionMatrix_args * option error :=
  match items with
  | [] => ([], None)
  | (idx, ld) :: rest =>
      match ConfusionMatrix l idx ld with
      | inr x => ([], Some x)
      | inl a => let '(calls, x) := report_loop l rest in (a :: calls, x)
      end
  end.

Definition enumerate_loaders : list (nat * loader) :=
  [(0%nat, train_loader); (1%nat, val_loader); (2%nat, test_loader)].

(** One run of [main] from line 60 on. *)
Record Run : Type := {
  left_try : ending;
  locals : Locals;
  reports : list ConfusionMatrix_args;
  failure : option error
}.

Definition main (cfg : Cfg) (w : World) : Run :=
  match try_block cfg w with
  | (l, uncaught x) =>
      {| left_try := uncaught x; locals := l; reports := []; failure := Some x |}
  | (l, ended t) =>
      let '(calls, x) := report_loop l enumerate_loaders in
      {| left_try := ended t; locals := l; reports := calls; failure := x |}
  end.

(** The status the interpreter exits with. *)
Definition exit_status (r : Run) : Z :=
  match failure r with
  | None => 0
  | Some _ => 1
  end.

(** What the loop has assigned to [save_ep] and [save_model_dir] when it is
    left: something on [break] only. *)
Definition selection (cfg : Cfg) (l : Locals) (f : flow) : Prop :=
  match f with
  | Break =>
      exists e, epoch l = Some e /\ save_ep l = Some (e - cfg_patience cfg) /\
                save_model_dir l = Some (epoch_pt (e - cfg_patience cfg))
  | _ => save_ep l = None /\ save_model_dir l = None
  end.

(** The three calls of the reporting loop for a selected label and path. *)
Definition three_reports (ep : Z) (path : string) : list ConfusionMatrix_args :=
  [ {| test_loader_arg := train_loader; model_PATH := path;
       save_name := "train_" +:+ format_05 ep;
       save_dir_name := "miss_train_" +:+ format_05 ep |};
    {| test_loader_arg := val_loader; model_PATH := path;
       save_name := "val_" +:+ format_05 ep;
       save_dir_name := "miss_val_" +:+ format_05 ep |};
    {| test_loader_arg := test_loader; model_PATH := path;
       save_name := "test_" +:+ format_05 ep;
       save_dir_name := "miss_test_" +:+ format_05 ep |} ].


(** The loop arrives at the top of iteration [e] still running. *)
Definition running_at (cfg : Cfg) (w : World) (e : Z) : Prop :=
  0 <= e < cfg_epoch cfg /\
  (for_epoch cfg w (Z.to_nat e) 0 (locals0 cfg)).2 = Next.

End Controller.

(** ** The specification's reading of the terminal states *)

Module Spec.
Import Controller.

(** Section 4.4: [stop_epoch] is the epoch of the stop verdict, the epoch
    before the interrupted one, or the last configured epoch. *)
Definition stop_epoch (cfg : Cfg) (t : terminal) (epoch : Z) : Z :=
  match t with
  | STOPPING_EARLY => epoch
  | INTERRUPTED => epoch - 1
  | DONE => cfg_epoch cfg - 1
  end.

(** Section 4.4: the label [stop_epoch - patience], clamped at 0. *)
Definition reporting_label (cfg : Cfg) (t : terminal) (epoch : Z) : Z :=
  Z.max 0 (stop_epoch cfg t epoch - cfg_patience cfg).

(** Sections 4.4 and 8: the label selected by a run that reached terminal
    state [t] with the loop variable at [e] is the clamped one. *)
Definition selects_clamped_label (cfg : Cfg) (r : Run) : Prop :=
  forall t e, left_try r = ended t -> epoch (locals r) = Some e ->
    save_ep (locals r) = Some (reporting_label cfg t e).

End Spec.

(** ** Loss curves used in the worked runs *)

Module Curves.

(** A validation loss that improves in every epoch: 1000, 999, 998, ... *)
Definition falling (e : Z) : float := PrimFloat.of_uint63 (Uint63.of_Z (1000 - e)).

(** A validation loss that never moves. *)
Definition flat (e : Z) : float := 1%float.

End Curves.

(** ** Fixed-width numerals *)

Module Numeral.

(** The [k] low-order decimal digits of [x], most significant first, put in
    front of [s]: what a zero-filled field of width [k] shows of a number
    below [10 ^ k]. *)
Fixpoint fixed (k : nat) (x : N) (s : string) : string :=
  match k with
  | O => s
  | S k' => fixed k' (x `div` 10)%N (String (pretty_N_char (x `mod` 10)%N) s)
  end.

End Numeral.

(** ** Lines 34-35: the directory of the run *)

Module RunDir.
Import PyFormat.

(** [f'{n:02}'] for an integer [n]: minimum width 2, zero fill, the sign
    before the fill. *)
Definition format_02 (n : Z) : string :=
  if n <? 0 then "-" +:+ zfill 1 (pretty (Z.abs_N n))
  else zfill 2 (pretty (Z.to_N n)).

(** [glob.glob1(cwd / 'logs', f'{today:%Y%m%d}_*')].  [logs] lists the names
    of the entries of [cwd/logs] (none when the directory is missing) and
    [ymd] is today's date as [%Y%m%d] prints it, a string of digits: the
    pattern has its only wildcard at the end and selects the names that start
    with the date and an underscore. *)
Definition glob1 (logs : list string) (ymd : string) : list string :=
  List.filter (String.prefix (ymd +:+ "_")) logs.

(** Line 34. *)
Definition num_id (logs : list string) (ymd : string) : Z :=
  Z.of_nat (length (glob1 logs ymd)) + 1.

(** [f'{today:%Y%m%d}_{num_id:02}_{cfg.method}'], the name of the run's
    directory inside [logs]. *)
Definition run_name (ymd : string) (id : Z) (method : string) : string :=
  ymd +:+ "_" +:+ format_02 id +:+ "_" +:+ method.

(** Line 35, relative to [cwd]. *)
Definition log_dir (logs : list string) (ymd method : string) : string :=
  "logs/" +:+ run_name ymd (num_id logs ymd) method.

(** The entries of [logs] after one run for each of [methods], in turn, has
    created its directory. *)
Fixpoint after_runs (logs : list string) (ymd : string) (methods : list string)
  : list string :=
  match methods with
  | [] => logs
  | m :: ms => after_runs (run_name ymd (num_id logs ymd) m :: logs) ymd ms
  end.

(** The entries of [logs] once entry [x] has been deleted. *)
Definition without (x : string) (logs : list string) : list string :=
  List.filter (fun y => negb (String.eqb y x)) logs.

(** A string made of decimal digits only. *)
Fixpoint digits_only (s : string) : Prop :=
  match s with
  | "" => True
  | String c s' => (exists d, (d < 10)%N /\ c = pretty_N_char d) /\ digits_only s'
  end.

End RunDir.

(** * Properties *)

(** ** File names *)

Section FileNames.
Import PyFormat.

Lemma length_app (a b : string) :
  String.length (a +:+ b) = (String.length a + String.length b)%nat.
Proof. induction a as [|c a IH]; [done|]. simpl. by rewrite <- IH. Qed.

Lemma app_inj_r (s a b : string) : a +:+ s = b +:+ s -> a = b.
Proof.
  revert b. induction a as [|c a IH]; intros [|d b] E; try done.
  - apply (f_equal String.length) in E. rewrite !length_app in E. simpl in E. lia.
  - apply (f_equal String.length) in E. rewrite !length_app in E. simpl in E. lia.
  - injection E as Hc Hs. subst d. f_equal. by apply IH.
Qed.

Lemma strip_fill_zeros k s : strip_fill (zeros k +:+ s) = strip_fill s.
Proof. induction k as [|k IH]; [done|]. simpl. exact IH. Qed.

(** The decimal numeral of a positive number starts with a digit other
    than 0. *)
Lemma pretty_N_go_head (x : N) :
  (0 < x)%N -> forall s, exists c s',
    pretty_N_go x s = String c s' /\ c <> "0"%char /\ c <> "-"%char.
Proof.
  induction (N.lt_wf_0 x) as [x _ IH]; intros Hx s.
  rewrite pretty_N_go_step by done.
  destruct (decide (x < 10)%N) as [Hlt|Hge].
  - rewrite (N.div_small x 10) by done. rewrite pretty_N_go_0.
    rewrite N.mod_small by done.
    exists (pretty_N_char x), s. split; [done|]. split.
    + intros E. change "0"%char with (pretty_N_char 0) in E.
      apply pretty_N_char_inj in E; lia.
    + unfold pretty_N_char. by repeat case_match.
  - apply IH.
    + apply N.div_lt; lia.
    + apply N.div_str_pos; lia.
Qed.

Lemma pretty_N_head (x : N) :
  x <> 0%N ->
  exists c s', pretty x = String c s' /\ c <> "0"%char /\ c <> "-"%char.
Proof.
  intros Hx. unfold pretty, pretty_N. rewrite decide_False by done.
  apply pretty_N_go_head. lia.
Qed.

Lemma strip_fill_pretty (x : N) :
  strip_fill (pretty x) = if decide (x = 0%N) then "" else pretty x.
Proof.
  destruct (decide (x = 0%N)) as [->|Hx]; [done|].
  destruct (pretty_N_head x Hx) as (c & s' & -> & Hc & _).
  simpl. by rewrite bool_decide_false.
Qed.

Lemma zfill_pretty_inj w (x y : N) :
  zfill w (pretty x) = zfill w (pretty y) -> x = y.
Proof.
  unfold zfill. intros E.
  apply (f_equal strip_fill) in E.
  rewrite !strip_fill_zeros, !strip_fill_pretty in E.
  destruct (decide (x = 0%N)) as [->|Hx], (decide (y = 0%N)) as [->|Hy];
    try done.
  - destruct (pretty_N_head y Hy) as (c & s' & E' & _). by rewrite E' in E.
  - destruct (pretty_N_head x Hx) as (c & s' & E' & _). by rewrite E' in E.
  - by apply (inj pretty).
Qed.

Lemma zfill_pretty_head w (x : N) :
  exists c s', zfill w (pretty x) = String c s' /\ c <> "-"%char.
Proof.
  unfold zfill. destruct (w - String.length (pretty x))%nat as [|k].
  - destruct (decide (x = 0%N)) as [->|Hx].
    + by exists "0"%char, "".
    + destruct (pretty_N_head x Hx) as (c & s' & E & _ & Hc).
      rewrite E. by exists c, s'.
  - simpl. by eexists _, _.
Qed.

(** Two integers never share a formatted field. *)
Lemma format_05_inj : Inj (=) (=) format_05.
Proof.
  intros n m. unfold format_05.
  destruct (Z.ltb_spec n 0) as [Hn|Hn], (Z.ltb_spec m 0) as [Hm|Hm]; intros E.
  - apply (inj (String.app "-")) in E. apply zfill_pretty_inj in E. lia.
  - destruct (zfill_pretty_head 5 (Z.to_N m)) as (c & s' & E' & Hc).
    rewrite E' in E. injection E as Hd _. by subst c.
  - destruct (zfill_pretty_head 5 (Z.to_N n)) as (c & s' & E' & Hc).
    rewrite E' in E. injection E as Hd _. by subst c.
  - apply zfill_pretty_inj in E. lia.
Qed.

(** Two epochs never share a checkpoint file. *)
Lemma epoch_pt_inj : Inj (=) (=) epoch_pt.
Proof.
  intros n m E. unfold epoch_pt in E.
  apply (inj (String.app "epoch")) in E. apply app_inj_r in E.
  by apply format_05_inj.
Qed.

End FileNames.

(** ** Seeding *)

Section SeedingFacts.
Import Seeding.

Lemma np_random_seed_in_range seed g :
  0 <= seed < 2 ^ 32 ->
  np_random_seed_call seed g =
    inl {| numpy_rng := Some seed; torch_cpu_rng := torch_cpu_rng g;
           torch_cuda_rng := torch_cuda_rng g |}.
Proof.
  intros Hs. unfold np_random_seed_call.
  destruct (Z.leb_spec 0 seed); [|lia].
  destruct (Z.ltb_spec seed (2 ^ 32)); [done|lia].
Qed.

Lemma np_random_seed_out_of_range seed g :
  ~ 0 <= seed < 2 ^ 32 -> np_random_seed_call seed g = inr ValueError.
Proof.
  intros Hs. unfold np_random_seed_call.
  destruct (Z.leb_spec 0 seed); [|done].
  destruct (Z.ltb_spec seed (2 ^ 32)); [lia|done].
Qed.

(** C9, as the claim states it, fails.  With CUDA available and seed 42 the
    CUDA generators are seeded all the same, by [torch.manual_seed] on
    line 29; with seed -1 line 28 raises and not even the NumPy generator is
    seeded. *)
Lemma cuda_generator_seeded_by_manual_seed :
  (torch_cuda_rng (rng (seed_all true 42)) = Some 42 /\
   ~ only_numpy_and_cpu_seeded (seed_all true 42) 42) /\
  (raised (seed_all true (-1)) = Some ValueError /\
   ~ only_numpy_and_cpu_seeded (seed_all true (-1)) (-1)).
Proof.
  split; (split; [reflexivity|]); intros (H1 & H2 & H3); discriminate.
Qed.

(** C9 (amended): whatever the seed and whether or not CUDA is available,
    the guard of line 30 compares a [torch.device] with the string ['cuda']
    and is false, so [torch.cuda.manual_seed] is never called.  With a seed
    from 0 to [2**32 - 1] the calls made are [np.random.seed] and
    [torch.manual_seed], which seed the NumPy and the CPU generator, and the
    CUDA generators exactly when CUDA is available; with any other seed
    [np.random.seed] raises [ValueError] on line 28 and nothing is seeded. *)
Theorem cuda_seed_branch_unreachable (cuda_is_available : bool) (seed : Z) :
  py_eq (device cuda_is_available) (py_str "cuda") = false /\
  (forall s, torch_cuda_manual_seed s ∉ calls (seed_all cuda_is_available seed)) /\
  (0 <= seed < 2 ^ 32 ->
     calls (seed_all cuda_is_available seed)
       = [np_random_seed seed; torch_manual_seed seed] /\
     raised (seed_all cuda_is_available seed) = None /\
     rng (seed_all cuda_is_available seed)
       = {| numpy_rng := Some seed; torch_cpu_rng := Some seed;
            torch_cuda_rng := if cuda_is_available then Some seed else None |}) /\
  (~ 0 <= seed < 2 ^ 32 ->
     calls (seed_all cuda_is_available seed) = [np_random_seed seed] /\
     raised (seed_all cuda_is_available seed) = Some ValueError /\
     rng (seed_all cuda_is_available seed) = unseeded).
Proof.
  assert (py_eq (device cuda_is_available) (py_str "cuda") = false) as Hguard
    by (by destruct cuda_is_available).
  assert (0 <= seed < 2 ^ 32 ->
     calls (seed_all cuda_is_available seed)
       = [np_random_seed seed; torch_manual_seed seed] /\
     raised (seed_all cuda_is_available seed) = None /\
     rng (seed_all cuda_is_available seed)
       = {| numpy_rng := Some seed; torch_cpu_rng := Some seed;
            torch_cuda_rng := if cuda_is_available then Some seed else None |})
    as Hin.
  { intros Hs. unfold seed_all.
    rewrite (np_random_seed_in_range seed unseeded Hs), Hguard. done. }
  assert (~ 0 <= seed < 2 ^ 32 ->
     calls (seed_all cuda_is_available seed) = [np_random_seed seed] /\
     raised (seed_all cuda_is_available seed) = Some ValueError /\
     rng (seed_all cuda_is_available seed) = unseeded) as Hout.
  { intros Hs. unfold seed_all.
    by rewrite (np_random_seed_out_of_range seed unseeded Hs). }
  split; [done|]. split; [|split; done].
  intros s Hcall.
  destruct (decide (0 <= seed < 2 ^ 32)) as [Hs|Hs].
  - destruct (Hin Hs) as [Hc _]. rewrite Hc in Hcall.
    apply elem_of_cons in Hcall as [Hcall|Hcall]; [done|].
    apply elem_of_cons in Hcall as [Hcall|Hcall]; [done|].
    by apply elem_of_nil in Hcall.
  - destruct (Hout Hs) as [Hc _]. rewrite Hc in Hcall.
    apply elem_of_cons in Hcall as [Hcall|Hcall]; [done|].
    by apply elem_of_nil in Hcall.
Qed.

(** Seed 42 with CUDA available, and seed [2**32], which line 28 refuses. *)
Lemma cuda_seed_branch_unreachable_witness :
  (0 <= 42 < 2 ^ 32 /\
   calls (seed_all true 42) = [np_random_seed 42; torch_manual_seed 42]) /\
  (~ 0 <= 2 ^ 32 < 2 ^ 32 /\
   raised (seed_all false (2 ^ 32)) = Some ValueError).
Proof.
  split.
  - assert (0 <= 42 < 2 ^ 32) as Hs by lia. split; [exact Hs|].
    apply (proj1 (proj2 (proj2 (cuda_seed_branch_unreachable true 42))) Hs).
  - assert (~ 0 <= 2 ^ 32 < 2 ^ 32) as Hs by lia. split; [exact Hs|].
    apply (proj2 (proj2 (proj2 (cuda_seed_branch_unreachable false (2 ^ 32)))) Hs).
Defined.

End SeedingFacts.

(** ** The early-stopping policy *)

Section PolicyFacts.
Import Policy.

Lemma evaluate_patience es s : patience (evaluate es s).1 = patience es.
Proof.
  unfold evaluate. destruct (improved es s); [done|].
  by destruct (patience es <=? counter es + 1).
Qed.

(** One evaluation: the counter is 0 after an improvement and one more than
    before otherwise. *)
Lemma evaluate_counter es s :
  counter (evaluate es s).1 = if improved es s then 0 else counter es + 1.
Proof.
  unfold evaluate. destruct (improved es s); [done|].
  by destruct (patience es <=? counter es + 1).
Qed.

(** What an evaluation answers, given a state that has not stopped and whose
    counter is below the patience. *)
Lemma evaluate_below es s :
  0 <= counter es < patience es -> early_stop es = false ->
  match evaluate es s with
  | (es', Continue) => 0 <= counter es' < patience es' /\ early_stop es' = false
  | (es', Stop) => counter es' = patience es' /\ early_stop es' = true
  end.
Proof.
  intros Hc Hs. unfold evaluate. destruct (improved es s); simpl.
  - split; [lia|done].
  - destruct (Z.leb_spec (patience es) (counter es + 1)); simpl.
    + split; [lia|done].
    + split; [lia|done].
Qed.

(** Along any sequence of scores: until the policy stops the counter stays
    below the patience, and when it stops the counter equals the patience. *)
Lemma feed_counter es scores :
  0 <= counter es < patience es -> early_stop es = false ->
  let es' := (feed es scores).1 in
  patience es' = patience es /\
  (early_stop es' = false -> 0 <= counter es' < patience es') /\
  (early_stop es' = true -> counter es' = patience es').
Proof.
  revert es. induction scores as [|s rest IH]; intros es Hc Hs; simpl.
  - rewrite Hs. split; [done|]. split; [done|]. discriminate.
  - pose proof (evaluate_below es s Hc Hs) as Hstep.
    pose proof (evaluate_patience es s) as Hp.
    destruct (evaluate es s) as [es1 [|]]; simpl in *.
    + destruct Hstep as [Hc1 Hs1]. rewrite Hp in Hc1.
      specialize (IH es1). rewrite Hp in IH. specialize (IH Hc1 Hs1).
      destruct (feed es1 rest) as [es2 vs]. simpl in *. exact IH.
    + destruct Hstep as [Hc1 Hs1]. rewrite Hs1. split; [done|].
      split; [discriminate|]. intros _. lia.
Qed.

(** C5: from every state the policy reaches on a sequence of scores, the
    counter is at most the patience; the next evaluation puts it at 0 exactly
    when it recognises an improvement and adds 1 to it otherwise. *)
Theorem patience_counter_discipline (p : Z) (scores : list float) (next : float) :
  0 < p ->
  let es := (feed (init p) scores).1 in
  let es' := (evaluate es next).1 in
  0 <= counter es <= p /\
  (early_stop es = false -> counter es < p) /\
  (improved es next = true <-> counter es' = 0) /\
  (improved es next = false -> counter es' = counter es + 1).
Proof.
  intros Hp es es'.
  destruct (feed_counter (init p) scores) as (Hpat & Hrun & Hstop);
    [simpl; lia | done |].
  fold es in Hpat, Hrun, Hstop. simpl in Hpat.
  assert (0 <= counter es <= p) as Hbound.
  { destruct (early_stop es); [specialize (Hstop eq_refl)|specialize (Hrun eq_refl)]; lia. }
  split; [done|]. split; [intros Hs; specialize (Hrun Hs); lia|].
  subst es'. rewrite evaluate_counter.
  destruct (improved es next); split; try done; lia.
Qed.

(** The discipline on a run that stops and on a step that improves. *)
Lemma patience_counter_discipline_witness :
  0 < 2 /\
  counter (feed (init 2) [5.0%float; 4.0%float; 4.0%float; 4.0%float]).1 = 2 /\
  counter (evaluate (feed (init 2) [5.0%float; 4.0%float; 4.0%float]).1 3.0%float).1 = 0.
Proof.
  split; [lia|]. split; [reflexivity|].
  apply (patience_counter_discipline 2 [5.0%float; 4.0%float; 4.0%float] 3.0%float);
    [lia | reflexivity].
Defined.

(** C4, as the claim states it, fails: with patience 2 the third evaluation
    of [5.0; 4.0; 4.0; 4.0] (index 2) is the first one without improvement,
    the counter is 1, and the answer is continue, not stop. *)
Lemma third_evaluation_continues :
  let run := feed (init 2) [5.0%float; 4.0%float; 4.0%float; 4.0%float] in
  run.2 !! 2%nat = Some Continue /\ run.2 !! 2%nat <> Some Stop /\
  counter (feed (init 2) [5.0%float; 4.0%float; 4.0%float]).1 = 1.
Proof. vm_compute. split; [done|]. split; [discriminate|done]. Qed.

(** C4 (amended): with [min_delta] 0 and patience 2 the policy answers
    continue on the first three evaluations of [5.0; 4.0; 4.0; 4.0] and stop
    on the fourth (index 3), where the best score is 4.0. *)
Theorem stop_at_fourth_evaluation :
  let run := feed (init 2) [5.0%float; 4.0%float; 4.0%float; 4.0%float] in
  min_delta (init 2) = 0%float /\
  run.2 = [Continue; Continue; Continue; Stop] /\
  best_score run.1 = 4.0%float /\ early_stop run.1 = true.
Proof. vm_compute. by repeat split. Qed.

End PolicyFacts.

(** ** The controller *)

Section ControllerFacts.
Import PyFormat Policy Controller.
Variables (cfg : Cfg) (w : World).

Ltac body_cases :=
  unfold body, raised;
  repeat case_bool_decide; simpl;
  try match goal with |- context [early_stop ?es] => destruct (early_stop es) eqn:? end;
  simpl.

(** Induction over the iterations of the loop: [P] holds at the top of each
    iteration, [Q] of the way the loop is left. *)
Lemma for_epoch_inv (P : Z -> Locals -> Prop) (Q : Locals -> flow -> Prop) :
  (forall e l, P e l ->
     match body cfg w e l with
     | (l', Next) => P (e + 1) l'
     | (l', f) => Q l' f
     end) ->
  (forall e l, P e l -> Q l Next) ->
  forall n e l, P e l ->
    Q (for_epoch cfg w n e l).1 (for_epoch cfg w n e l).2.
Proof.
  intros Hbody Hexit n. induction n as [|n IH]; intros e l HP; simpl.
  - by eapply Hexit.
  - specialize (Hbody e l HP).
    destruct (body cfg w e l) as [l' [| |]]; simpl; auto.
Qed.

Lemma for_epoch_app n m e l :
  for_epoch cfg w (n + m) e l =
  match for_epoch cfg w n e l with
  | (l', Next) => for_epoch cfg w m (e + Z.of_nat n) l'
  | stopped => stopped
  end.
Proof.
  revert e l. induction n as [|n IH]; intros e l; simpl.
  - by rewrite Z.add_0_r.
  - destruct (body cfg w e l) as [l' [| |]]; [|done..].
    rewrite IH. replace (e + 1 + Z.of_nat n) with (e + Z.pos (Pos.of_succ_nat n)) by lia.
    done.
Qed.

(** An iteration binds the loop variable before anything else. *)
Lemma body_epoch e l : epoch (body cfg w e l).1 = Some e.
Proof. body_cases; done. Qed.

(** The signal raised in epoch [e] ends that iteration. *)
Lemma body_interrupt e s l :
  sigint w = Some (in_epoch e s) -> (body cfg w e l).2 = Interrupt.
Proof. intros Hs. destruct s; body_cases; congruence. Qed.

Lemma for_epoch_selection n e :
  selection cfg (for_epoch cfg w n e (locals0 cfg)).1
                (for_epoch cfg w n e (locals0 cfg)).2.
Proof.
  apply (for_epoch_inv (fun _ l => save_ep l = None /\ save_model_dir l = None)
                       (selection cfg)); [| |done].
  - intros e' l [H1 H2]. body_cases; eauto.
  - intros e' l H. exact H.
Qed.

Lemma except_KeyboardInterrupt_spec l :
  match except_KeyboardInterrupt l with
  | (l', ended t) =>
      t = INTERRUPTED /\ log_dir l' = log_dir l /\
      exists e, epoch l = Some e /\ epoch l' = Some e /\ save_ep l' = Some (e - 1) /\
                save_model_dir l' = Some (epoch_pt (e - 1))
  | (l', uncaught x) =>
      x = UnboundLocalError "epoch" /\ l' = l /\ epoch l = None
  end.
Proof.
  unfold except_KeyboardInterrupt. destruct (epoch l) as [e|] eqn:He; simpl.
  - split; [done|]. split; [done|]. by exists e.
  - done.
Qed.

(** What the [try] statement leaves behind, by terminal state. *)
Lemma try_block_spec :
  let l := (try_block cfg w).1 in
  match (try_block cfg w).2 with
  | ended STOPPING_EARLY =>
      exists e, epoch l = Some e /\ save_ep l = Some (e - cfg_patience cfg) /\
                save_model_dir l = Some (epoch_pt (e - cfg_patience cfg))
  | ended INTERRUPTED =>
      exists e, epoch l = Some e /\ save_ep l = Some (e - 1) /\
                save_model_dir l = Some (epoch_pt (e - 1))
  | ended DONE => save_ep l = None /\ save_model_dir l = None
  | uncaught x => x = UnboundLocalError "epoch" /\ epoch l = None
  end.
Proof.
  unfold try_block.
  pose proof (for_epoch_selection (Z.to_nat (cfg_epoch cfg)) 0) as Hsel.
  assert (forall l0, match (except_KeyboardInterrupt l0).2 with
    | ended STOPPING_EARLY | ended DONE => False
    | ended INTERRUPTED =>
        exists e, epoch (except_KeyboardInterrupt l0).1 = Some e /\
                  save_ep (except_KeyboardInterrupt l0).1 = Some (e - 1) /\
                  save_model_dir (except_KeyboardInterrupt l0).1 = Some (epoch_pt (e - 1))
    | uncaught x => x = UnboundLocalError "epoch" /\
                    epoch (except_KeyboardInterrupt l0).1 = None
    end) as Hexc.
  { intros l0. pose proof (except_KeyboardInterrupt_spec l0) as H.
    destruct (except_KeyboardInterrupt l0) as [l' [t|x]]; simpl.
    - destruct H as (-> & _ & e & _ & ? & ? & ?). by exists e.
    - destruct H as (-> & -> & ?). done. }
  case_bool_decide.
  { specialize (Hexc (locals0 cfg)).
    by destruct (except_KeyboardInterrupt (locals0 cfg)) as [l' [[| |]|x]]. }
  destruct (for_epoch cfg w (Z.to_nat (cfg_epoch cfg)) 0 (locals0 cfg))
    as [l [| |]]; simpl in Hsel.
  - case_bool_decide; simpl; [|done].
    specialize (Hexc l). by destruct (except_KeyboardInterrupt l) as [l' [[| |]|x]].
  - case_bool_decide; simpl; [|done].
    specialize (Hexc l). by destruct (except_KeyboardInterrupt l) as [l' [[| |]|x]].
  - specialize (Hexc l). by destruct (except_KeyboardInterrupt l) as [l' [[| |]|x]].
Qed.

Lemma main_try :
  left_try (main cfg w) = (try_block cfg w).2 /\
  locals (main cfg w) = (try_block cfg w).1.
Proof.
  unfold main. destruct (try_block cfg w) as [l [t|x]]; [|done].
  by destruct (report_loop l enumerate_loaders).
Qed.

(** With a label and a path selected, the reporting loop makes its three
    calls, all with that path. *)
Lemma report_loop_selected l ep path :
  save_ep l = Some ep -> save_model_dir l = Some path ->
  report_loop l enumerate_loaders = (three_reports ep path, None).
Proof.
  intros Hep Hpath. unfold enumerate_loaders, report_loop, ConfusionMatrix.
  rewrite Hep, Hpath. reflexivity.
Qed.

(** With nothing selected, the first call already fails on its arguments. *)
Lemma report_loop_unbound l :
  save_model_dir l = None ->
  report_loop l enumerate_loaders = ([], Some (UnboundLocalError "save_model_dir")).
Proof.
  intros Hpath. unfold enumerate_loaders, report_loop, ConfusionMatrix.
  by rewrite Hpath.
Qed.

(** A run that exhausts its epochs has selected nothing: it makes no report
    and ends on [UnboundLocalError]. *)
Lemma main_DONE :
  left_try (main cfg w) = ended DONE ->
  save_ep (locals (main cfg w)) = None /\
  save_model_dir (locals (main cfg w)) = None /\
  reports (main cfg w) = [] /\
  failure (main cfg w) = Some (UnboundLocalError "save_model_dir") /\
  exit_status (main cfg w) = 1.
Proof.
  pose proof try_block_spec as Hspec. unfold exit_status, main.
  destruct (try_block cfg w) as [l [t|x]]; cbn [fst snd] in Hspec; [|discriminate].
  destruct (report_loop l enumerate_loaders) as [calls x] eqn:Hrep; simpl.
  intros [= ->]. destruct Hspec as [Hep Hpath].
  rewrite report_loop_unbound in Hrep by done. by injection Hrep as <- <-.
Qed.

(** A run stopped early or interrupted in an epoch makes the three reports
    from the one path it selected. *)
Lemma main_selected t :
  left_try (main cfg w) = ended t -> t <> DONE ->
  exists ep, save_ep (locals (main cfg w)) = Some ep /\
             save_model_dir (locals (main cfg w)) = Some (epoch_pt ep) /\
             reports (main cfg w) = three_reports ep (epoch_pt ep) /\
             failure (main cfg w) = None.
Proof.
  pose proof try_block_spec as Hspec. unfold main.
  destruct (try_block cfg w) as [l [t'|x]]; cbn [fst snd] in Hspec; [|discriminate].
  destruct (report_loop l enumerate_loaders) as [calls x] eqn:Hrep; simpl.
  intros [= ->] Hnot.
  destruct t; [| |done]; destruct Hspec as (e & _ & Hep & Hpath);
    rewrite (report_loop_selected l _ _ Hep Hpath) in Hrep;
    injection Hrep as <- <-; eauto.
Qed.

(** The run interrupted in an epoch it reached: the handler works on the
    locals that the cut iteration left. *)
Lemma try_block_interrupted e s :
  running_at cfg w e -> sigint w = Some (in_epoch e s) ->
  try_block cfg w =
    (select (body cfg w e (for_epoch cfg w (Z.to_nat e) 0 (locals0 cfg)).1).1 (e - 1),
     ended INTERRUPTED).
Proof.
  intros [Hrange Hrun] Hsig. unfold try_block.
  rewrite bool_decide_false by (rewrite Hsig; discriminate).
  replace (Z.to_nat (cfg_epoch cfg))
    with (Z.to_nat e + S (Z.to_nat (cfg_epoch cfg - e - 1)))%nat by lia.
  rewrite for_epoch_app.
  destruct (for_epoch cfg w (Z.to_nat e) 0 (locals0 cfg)) as [l1 f1].
  simpl in Hrun. subst f1. cbn [fst].
  replace (0 + Z.of_nat (Z.to_nat e)) with e by lia.
  cbn [for_epoch].
  pose proof (body_interrupt e s l1 Hsig) as Hf.
  pose proof (body_epoch e l1) as He.
  destruct (body cfg w e l1) as [l2 f2]. simpl in Hf, He. subst f2.
  unfold except_KeyboardInterrupt. by rewrite He.
Qed.

(** C1 (amended): a run stopped by the policy in epoch [e] selects the label
    [e - patience], which is the specification's [stop_epoch - patience]
    without the clamp; a run interrupted with the loop variable at [e]
    selects [e - 1], which is the specification's [stop_epoch] itself, with
    no patience taken off and no clamp.  In both cases the path selected is
    the checkpoint file of that label. *)
Theorem reporting_label_by_terminal_state :
  let r := main cfg w in
  (left_try r = ended STOPPING_EARLY ->
   exists e, epoch (locals r) = Some e /\
     save_ep (locals r) = Some (Spec.stop_epoch cfg STOPPING_EARLY e - cfg_patience cfg) /\
     save_model_dir (locals r) = Some (epoch_pt (e - cfg_patience cfg))) /\
  (left_try r = ended INTERRUPTED ->
   exists e, epoch (locals r) = Some e /\
     save_ep (locals r) = Some (Spec.stop_epoch cfg INTERRUPTED e) /\
     save_model_dir (locals r) = Some (epoch_pt (e - 1))).
Proof.
  destruct main_try as [Ht Hl]. simpl. rewrite Ht, Hl.
  pose proof try_block_spec as Hspec. simpl in Hspec.
  split; intros Hend; rewrite Hend in Hspec; exact Hspec.
Qed.

(** C6: a signal raised while the loop is in epoch [e] takes the run to
    [INTERRUPTED], and the epoch the handler records is [e - 1]. *)
Theorem interrupt_records_previous_epoch e s :
  running_at cfg w e -> sigint w = Some (in_epoch e s) ->
  left_try (main cfg w) = ended INTERRUPTED /\
  epoch (locals (main cfg w)) = Some e /\
  save_ep (locals (main cfg w)) = Some (e - 1) /\
  Spec.stop_epoch cfg INTERRUPTED e = e - 1.
Proof.
  intros Hrun Hsig. destruct main_try as [Ht Hl]. rewrite Ht, Hl.
  rewrite (try_block_interrupted e s Hrun Hsig). simpl.
  split; [done|]. split; [|done]. apply body_epoch.
Qed.






End ControllerFacts.

(** Interrupting epoch 5 of a run of ten epochs, patience 2, whose loss
    improves in every epoch: the epoch recorded is 4. *)
Lemma interrupt_records_previous_epoch_witness :
  let cfg := {| Controller.cfg_epoch := 10; Controller.cfg_patience := 2 |} in
  let w := {| Controller.val_loss := Curves.falling;
              Controller.sigint := Some (Controller.in_epoch 5 Controller.at_eval_model) |} in
  Controller.running_at cfg w 5 /\
  Controller.save_ep (Controller.locals (Controller.main cfg w)) = Some 4.
Proof.
  intros cfg w.
  assert (Controller.running_at cfg w 5) as Hrun
    by (split; [simpl; lia | vm_compute; reflexivity]).
  split; [exact Hrun|].
  apply (interrupt_records_previous_epoch cfg w 5 Controller.at_eval_model Hrun eq_refl).
Defined.

(** A run stopped early and a run interrupted, with the labels they select. *)
Lemma reporting_label_by_terminal_state_witness :
  (exists e,
     Controller.epoch (Controller.locals (Controller.main
       {| Controller.cfg_epoch := 10; Controller.cfg_patience := 3 |}
       {| Controller.val_loss := Curves.flat; Controller.sigint := None |})) = Some e /\
     Controller.save_ep (Controller.locals (Controller.main
       {| Controller.cfg_epoch := 10; Controller.cfg_patience := 3 |}
       {| Controller.val_loss := Curves.flat; Controller.sigint := None |}))
       = Some (e - 3)) /\
  (exists e,
     Controller.epoch (Controller.locals (Controller.main
       {| Controller.cfg_epoch := 10; Controller.cfg_patience := 2 |}
       {| Controller.val_loss := Curves.falling;
          Controller.sigint := Some (Controller.in_epoch 5 Controller.at_train_model) |})) = Some e /\
     Controller.save_ep (Controller.locals (Controller.main
       {| Controller.cfg_epoch := 10; Controller.cfg_patience := 2 |}
       {| Controller.val_loss := Curves.falling;
          Controller.sigint := Some (Controller.in_epoch 5 Controller.at_train_model) |}))
       = Some (e - 1)).
Proof.
  split.
  - destruct (proj1 (reporting_label_by_terminal_state
      {| Controller.cfg_epoch := 10; Controller.cfg_patience := 3 |}
      {| Controller.val_loss := Curves.flat; Controller.sigint := None |}))
      as (e & He & Hep & _); [vm_compute; reflexivity|].
    exists e. split; [exact He|exact Hep].
  - destruct (proj2 (reporting_label_by_terminal_state
      {| Controller.cfg_epoch := 10; Controller.cfg_patience := 2 |}
      {| Controller.val_loss := Curves.falling;
         Controller.sigint := Some (Controller.in_epoch 5 Controller.at_train_model) |}))
      as (e & He & Hep & _); [vm_compute; reflexivity|].
    exists e. split; [exact He|exact Hep].
Defined.

(** C1, as the claim states it, fails.  Interrupted in epoch 5 with
    patience 2, the run selects label 4 where [stop_epoch - patience] is 2;
    interrupted in epoch 0 it selects label -1, below the clamp. *)
Lemma interrupted_run_selects_other_label :
  let cfg := {| Controller.cfg_epoch := 10; Controller.cfg_patience := 2 |} in
  let r5 := Controller.main cfg
    {| Controller.val_loss := Curves.falling;
       Controller.sigint := Some (Controller.in_epoch 5 Controller.at_train_model) |} in
  let r0 := Controller.main cfg
    {| Controller.val_loss := Curves.falling;
       Controller.sigint := Some (Controller.in_epoch 0 Controller.at_train_model) |} in
  (Controller.left_try r5 = Controller.ended Controller.INTERRUPTED /\
   Controller.save_ep (Controller.locals r5) = Some 4 /\
   Spec.reporting_label cfg Controller.INTERRUPTED 5 = 2 /\
   ~ Spec.selects_clamped_label cfg r5) /\
  (Controller.left_try r0 = Controller.ended Controller.INTERRUPTED /\
   Controller.save_ep (Controller.locals r0) = Some (-1) /\
   Spec.reporting_label cfg Controller.INTERRUPTED 0 = 0 /\
   ~ Spec.selects_clamped_label cfg r0).
Proof.
  intros cfg r5 r0. split.
  - split; [vm_compute; reflexivity|]. split; [vm_compute; reflexivity|].
    split; [reflexivity|]. intros Hclaim.
    specialize (Hclaim Controller.INTERRUPTED 5).
    assert (Controller.save_ep (Controller.locals r5) = Some 4) as Hsel
      by (vm_compute; reflexivity).
    rewrite Hsel in Hclaim.
    specialize (Hclaim ltac:(vm_compute; reflexivity) ltac:(vm_compute; reflexivity)).
    vm_compute in Hclaim. discriminate.
  - split; [vm_compute; reflexivity|]. split; [vm_compute; reflexivity|].
    split; [reflexivity|]. intros Hclaim.
    specialize (Hclaim Controller.INTERRUPTED 0).
    assert (Controller.save_ep (Controller.locals r0) = Some (-1)) as Hsel
      by (vm_compute; reflexivity).
    rewrite Hsel in Hclaim.
    specialize (Hclaim ltac:(vm_compute; reflexivity) ltac:(vm_compute; reflexivity)).
    vm_compute in Hclaim. discriminate.
Qed.



(** C2: three epochs configured, patience 5, a loss that never moves, no
    signal.  The policy never stops, the loop runs out after epoch 2, and the
    run is in [DONE] with nothing assigned to [save_ep] or [save_model_dir]:
    the first report call raises [UnboundLocalError], no report is written
    and the exit status is 1. *)
Theorem full_run_ends_on_unbound_name :
  let r := Controller.main
    {| Controller.cfg_epoch := 3; Controller.cfg_patience := 5 |}
    {| Controller.val_loss := Curves.flat; Controller.sigint := None |} in
  Controller.left_try r = Controller.ended Controller.DONE /\
  Controller.epoch (Controller.locals r) = Some 2 /\
  Policy.early_stop (Controller.earlystopping (Controller.locals r)) = false /\
  Controller.save_ep (Controller.locals r) = None /\
  Controller.reports r = [] /\
  Controller.failure r = Some (Controller.UnboundLocalError "save_model_dir") /\
  Controller.exit_status r = 1.
Proof. vm_compute. by repeat split. Qed.

(** C8: two epochs configured, patience 1, a loss that improves in both.
    The run reaches the reporting loop in [DONE] with no checkpoint path
    selected, and the loop makes none of its three calls. *)
Theorem full_run_selects_no_checkpoint :
  let r := Controller.main
    {| Controller.cfg_epoch := 2; Controller.cfg_patience := 1 |}
    {| Controller.val_loss := Curves.falling; Controller.sigint := None |} in
  Controller.left_try r = Controller.ended Controller.DONE /\
  Controller.save_model_dir (Controller.locals r) = None /\
  Controller.reports r = [] /\
  length (Controller.reports r) <> length Controller.enumerate_loaders /\
  Controller.failure r = Some (Controller.UnboundLocalError "save_model_dir").
Proof. vm_compute. repeat split; first [done | discriminate]. Qed.


(** ** Zero-filled fields as fixed-width numerals *)

Section FixedWidth.
Import PyFormat Numeral.

Lemma app_cons c (s t : string) : String c s +:+ t = String c (s +:+ t).
Proof. reflexivity. Qed.

Lemma zeros_snoc k s : zeros k +:+ String "0"%char s = zeros (S k) +:+ s.
Proof.
  induction k as [|k IH]; [done|].
  change (zeros (S k)) with (String "0"%char (zeros k)).
  rewrite !app_cons. by rewrite IH.
Qed.

Lemma length_zeros k : String.length (zeros k) = k.
Proof. induction k as [|k IH]; [done|]. simpl. by rewrite IH. Qed.

Lemma length_fixed k x s :
  String.length (fixed k x s) = (k + String.length s)%nat.
Proof.
  revert x s. induction k as [|k IH]; intros x s; simpl; [done|].
  rewrite IH. simpl. lia.
Qed.

Lemma fixed_app k x s t : fixed k x s +:+ t = fixed k x (s +:+ t).
Proof.
  revert x s. induction k as [|k IH]; intros x s; simpl; [done|].
  by rewrite IH.
Qed.

Lemma fixed_0 k s : fixed k 0 s = zeros k +:+ s.
Proof.
  revert s. induction k as [|k IH]; intros s; [done|].
  change (fixed (S k) 0 s) with (fixed k 0 (String "0"%char s)).
  rewrite IH. apply zeros_snoc.
Qed.

(** Below [10 ^ k], the numeral that [pretty] prints has at most [k] digits,
    and filling it up to [k] gives the [k] digits of the number. *)
Lemma pretty_N_go_fixed k (x : N) s :
  (x < 10 ^ N.of_nat k)%N ->
  exists d, (d <= k)%nat /\
    String.length (pretty_N_go x s) = (d + String.length s)%nat /\
    fixed k x s = zeros (k - d) +:+ pretty_N_go x s.
Proof.
  revert x s. induction k as [|k IH]; intros x s Hx.
  - assert (x = 0%N) as -> by (simpl in Hx; lia).
    exists 0%nat. by rewrite pretty_N_go_0.
  - destruct (decide (x = 0%N)) as [->|Hpos].
    + exists 0%nat. rewrite pretty_N_go_0. split; [lia|]. split; [done|].
      rewrite Nat.sub_0_r. apply fixed_0.
    + rewrite pretty_N_go_step by lia. simpl fixed.
      destruct (IH (x `div` 10)%N (String (pretty_N_char (x `mod` 10)) s))
        as (d & Hd & Hlen & Hfix).
      { apply N.Div0.div_lt_upper_bound.
        rewrite Nat2N.inj_succ, N.pow_succ_r' in Hx. lia. }
      exists (S d). split; [lia|]. split.
      * rewrite Hlen. simpl. lia.
      * rewrite Hfix. by replace (S k - S d)%nat with (k - d)%nat by lia.
Qed.

Lemma zfill_fixed k (x : N) :
  (0 < k)%nat -> (x < 10 ^ N.of_nat k)%N -> zfill k (pretty x) = fixed k x "".
Proof.
  intros Hk Hx. unfold zfill, pretty, pretty_N.
  destruct (decide (x = 0%N)) as [->|Hpos].
  - rewrite fixed_0. simpl String.length.
    destruct k as [|k]; [lia|]. replace (S k - 1)%nat with k by lia.
    apply zeros_snoc.
  - destruct (pretty_N_go_fixed k x "" Hx) as (d & Hd & Hlen & Hfix).
    rewrite Hfix, Hlen. simpl. by rewrite Nat.add_0_r.
Qed.

Lemma format_05_fixed n :
  0 <= n < 100000 -> format_05 n = fixed 5 (Z.to_N n) "".
Proof.
  intros Hn. unfold format_05.
  destruct (Z.ltb_spec n 0) as [?|_]; [lia|].
  apply zfill_fixed; [lia|]. change (10 ^ N.of_nat 5)%N with 100000%N. lia.
Qed.

(** The character of a digit has the code of ['0'] plus the digit. *)
Lemma N_of_ascii_digit (a : N) :
  (a < 10)%N -> N_of_ascii (pretty_N_char a) = (48 + a)%N.
Proof.
  intros Ha. destruct a as [|p]; [reflexivity|].
  do 4 (try (destruct p as [p|p|]; try lia; try reflexivity)).
Qed.

Lemma compare_digit (a b : N) :
  (a < 10)%N -> (b < 10)%N ->
  Ascii.compare (pretty_N_char a) (pretty_N_char b) = (a ?= b)%N.
Proof.
  intros Ha Hb. unfold Ascii.compare. rewrite !N_of_ascii_digit by done.
  destruct (N.compare_spec a b), (N.compare_spec (48 + a) (48 + b)); done || lia.
Qed.

(** Numerals of equal width compare as the numbers they show. *)
Lemma compare_fixed k (x y : N) s t :
  (x < 10 ^ N.of_nat k)%N -> (y < 10 ^ N.of_nat k)%N ->
  String.compare (fixed k x s) (fixed k y t) =
  match (x ?= y)%N with
  | Eq => String.compare s t
  | c => c
  end.
Proof.
  revert x y s t. induction k as [|k IH]; intros x y s t Hx Hy.
  - assert (x = 0%N) as -> by (simpl in Hx; lia).
    assert (y = 0%N) as -> by (simpl in Hy; lia). done.
  - rewrite Nat2N.inj_succ, N.pow_succ_r' in Hx, Hy. simpl fixed.
    rewrite IH by (apply N.Div0.div_lt_upper_bound; lia).
    simpl String.compare.
    rewrite compare_digit by (apply N.mod_lt; lia).
    pose proof (N.div_mod x 10 ltac:(lia)) as Ex.
    pose proof (N.div_mod y 10 ltac:(lia)) as Ey.
    pose proof (N.mod_lt x 10 ltac:(lia)) as Hrx.
    pose proof (N.mod_lt y 10 ltac:(lia)) as Hry.
    clear IH Hx Hy.
    generalize dependent (x `div` 10)%N. generalize dependent (x `mod` 10)%N.
    generalize dependent (y `div` 10)%N. generalize dependent (y `mod` 10)%N.
    intros ry Hry qy Ey rx Hrx qx Ex.
    destruct (N.compare_spec qx qy) as [Hq|Hlt|Hgt].
    + destruct (N.compare_spec rx ry) as [Er|Hr|Hr].
      * assert (x = y) as -> by lia. by rewrite N.compare_refl.
      * assert (x < y)%N as Hxy by lia. apply N.compare_lt_iff in Hxy.
        by rewrite Hxy.
      * assert (y < x)%N as Hxy by lia. apply N.compare_gt_iff in Hxy.
        by rewrite Hxy.
    + assert (x < y)%N as Hxy by lia. apply N.compare_lt_iff in Hxy.
      by rewrite Hxy.
    + assert (y < x)%N as Hxy by lia. apply N.compare_gt_iff in Hxy.
      by rewrite Hxy.
Qed.

Lemma compare_app_l (p a b : string) :
  String.compare (p +:+ a) (p +:+ b) = String.compare a b.
Proof.
  induction p as [|c p IH]; [done|].
  rewrite !app_cons. simpl.
  unfold Ascii.compare. by rewrite N.compare_refl.
Qed.

(** X1: for epochs below 100000 the checkpoint file names compare, as
    strings, the way their epochs compare as numbers, so a sorted listing of
    [log_dir] shows the checkpoints in epoch order. *)
Theorem checkpoint_names_sort_by_epoch (n m : Z) :
  0 <= n < 100000 -> 0 <= m < 100000 ->
  String.compare (epoch_pt n) (epoch_pt m) = (n ?= m).
Proof.
  intros Hn Hm. unfold epoch_pt.
  rewrite compare_app_l, !format_05_fixed, !fixed_app by done.
  rewrite compare_fixed by (change (10 ^ N.of_nat 5)%N with 100000%N; lia).
  rewrite <- Z2N.inj_compare by lia.
  by destruct (Z.to_N n ?= Z.to_N m)%N.
Qed.

End FixedWidth.

(** Epochs 7 and 12: the names compare as 7 and 12 do. *)
Lemma checkpoint_names_sort_by_epoch_witness :
  String.compare (PyFormat.epoch_pt 7) (PyFormat.epoch_pt 12) = Lt.
Proof. apply (checkpoint_names_sort_by_epoch 7 12); lia. Defined.

(** The bound is sharp: the name of epoch 100000 sorts before that of
    epoch 99999. *)
Lemma checkpoint_names_order_breaks_at_100000 :
  String.compare (PyFormat.epoch_pt 100000) (PyFormat.epoch_pt 99999) = Lt.
Proof. vm_compute. reflexivity. Qed.

(** ** Names of the files a run writes *)

Section ArtifactNames.
Import PyFormat Numeral Controller.

Lemma length_zfill_ge w s : (w <= String.length (zfill w s))%nat.
Proof. unfold zfill. rewrite length_app, length_zeros. lia. Qed.

(** X2: the numeric field of a checkpoint name never has fewer than five
    characters, so the name never has fewer than thirteen; for labels from
    -9999 to 99999 it has exactly thirteen. *)
Theorem checkpoint_name_width (n : Z) :
  (13 <= String.length (epoch_pt n))%nat /\
  (-10000 < n < 100000 -> String.length (epoch_pt n) = 13%nat).
Proof.
  unfold epoch_pt. rewrite !length_app. simpl String.length.
  unfold format_05. destruct (Z.ltb_spec n 0) as [Hneg|Hpos].
  - rewrite length_app. simpl String.length. split.
    + pose proof (length_zfill_ge 4 (pretty (Z.abs_N n))). lia.
    + intros Hn. rewrite zfill_fixed, length_fixed; [done|lia|].
      change (10 ^ N.of_nat 4)%N with 10000%N. lia.
  - split.
    + pose proof (length_zfill_ge 5 (pretty (Z.to_N n))). lia.
    + intros Hn. rewrite zfill_fixed, length_fixed; [done|lia|].
      change (10 ^ N.of_nat 5)%N with 100000%N. lia.
Qed.

(** X3: two labels select the same checkpoint file only if they are the same
    label; this holds over all integers, the negative labels that the
    handler can produce included. *)
Theorem checkpoint_name_determines_label (n m : Z) :
  epoch_pt n = epoch_pt m <-> n = m.
Proof. split; [apply epoch_pt_inj | by intros ->]. Qed.

Lemma app_empty (s : string) : "" +:+ s = s.
Proof. reflexivity. Qed.

(** X4: the names under which the reports are saved tell the split and the
    label apart: two calls of the reporting loop share [save_name], or share
    [save_dir_name], only if they are for the same item of the loop and the
    same selected label. *)
Theorem report_names_distinct (l l' : Locals) (i j : nat) (ld ld' : loader)
    (a b : ConfusionMatrix_args) :
  (i < 3)%nat -> (j < 3)%nat ->
  ConfusionMatrix l i ld = inl a -> ConfusionMatrix l' j ld' = inl b ->
  save_name a = save_name b \/ save_dir_name a = save_dir_name b ->
  i = j /\ save_ep l = save_ep l'.
Proof.
  intros Hi Hj. unfold ConfusionMatrix.
  destruct (save_model_dir l) as [p|]; [|discriminate].
  destruct (save_ep l) as [ep|]; [|discriminate].
  destruct (save_model_dir l') as [p'|]; [|discriminate].
  destruct (save_ep l') as [ep'|]; [|discriminate].
  intros [= <-] [= <-]. simpl.
  destruct i as [|[|[|i]]]; [| | |lia];
    (destruct j as [|[|[|j]]]; [| | |lia]);
    change (phaze !!! 0%nat) with "train";
    change (phaze !!! 1%nat) with "val";
    change (phaze !!! 2%nat) with "test";
    intros [E|E];
    repeat (progress rewrite ?app_cons, ?app_empty in E);
    simplify_eq;
    match goal with
    | H : format_05 _ = format_05 _ |- _ => apply format_05_inj in H; by subst
    end.
Qed.

End ArtifactNames.

(** Labels -1 and 0 are within the range of exact width. *)
Lemma checkpoint_name_width_witness :
  String.length (PyFormat.epoch_pt (-1)) = 13%nat /\
  String.length (PyFormat.epoch_pt 0) = 13%nat.
Proof.
  split.
  - apply (proj2 (checkpoint_name_width (-1))). lia.
  - apply (proj2 (checkpoint_name_width 0)). lia.
Defined.

(** ** The loop variable, the training passes and the signal *)

Section LoopFacts.
Import PyFormat Policy Controller.
Variables (cfg : Cfg) (w : World).

Ltac body_cases :=
  unfold body, raised;
  repeat case_bool_decide; simpl;
  try match goal with |- context [early_stop ?es] => destruct (early_stop es) eqn:? end;
  simpl.

(** One iteration makes one training pass, unless the signal cuts line 68
    short, and an iteration so cut is left by the exception. *)
Lemma body_model e l :
  model (body cfg w e l).1 = model l + (if raised w e at_train_model then 0 else 1) /\
  (raised w e at_train_model = true -> (body cfg w e l).2 = Interrupt).
Proof. body_cases; split; (lia || congruence || done). Qed.

(** An iteration left by [break] has seen the flag set; one left normally
    has seen it clear. *)
Lemma body_flag e l :
  match (body cfg w e l).2 with
  | Break => early_stop (earlystopping (body cfg w e l).1) = true
  | Next => early_stop (earlystopping (body cfg w e l).1) = false
  | Interrupt => exists s, sigint w = Some (in_epoch e s)
  end.
Proof. body_cases; eauto. Qed.

(** The values the loop variable takes, and the passes made, over [n]
    iterations from [e]. *)
Lemma for_epoch_range n e l :
  let r := for_epoch cfg w n e l in
  (n = 0%nat /\ r = (l, Next)) \/
  exists k, epoch r.1 = Some k /\ e <= k < e + Z.of_nat n /\
    (r.2 = Next -> k = e + Z.of_nat n - 1) /\
    model r.1 = model l + (k - e) + (if raised w k at_train_model then 0 else 1) /\
    match r.2 with
    | Break => early_stop (earlystopping r.1) = true
    | Next => early_stop (earlystopping r.1) = false
    | Interrupt => exists s, sigint w = Some (in_epoch k s)
    end.
Proof.
  revert e l. induction n as [|n IH]; intros e l; [by left|].
  right. cbn [for_epoch].
  pose proof (body_epoch cfg w e l) as Hepoch.
  pose proof (body_model e l) as [Hmodel Hcut].
  pose proof (body_flag e l) as Hflag.
  destruct (body cfg w e l) as [l1 f1] eqn:Hbody. simpl in Hepoch, Hmodel, Hcut, Hflag.
  destruct f1.
  - destruct (raised w e at_train_model) eqn:Hr; [by specialize (Hcut eq_refl)|].
    destruct (IH (e + 1) l1) as [[-> Hr0]|(k & Hk & Hrange & Hnext & Hm & Hf)].
    + simpl. exists e. rewrite Hr. repeat split; try done; lia.
    + exists k. split; [done|]. split; [lia|]. split; [intros H; specialize (Hnext H); lia|].
      split; [|done]. rewrite Hm, Hmodel. lia.
  - exists e. simpl.
    destruct (raised w e at_train_model) eqn:Hr; [by specialize (Hcut eq_refl)|].
    repeat split; try done; lia.
  - exists e. simpl. split; [done|]. split; [lia|]. split; [done|].
    split; [lia|done].
Qed.

(** What the loop of [main] leaves, with the loop variable bound or not. *)
Lemma loop_of_main :
  let r := for_epoch cfg w (Z.to_nat (cfg_epoch cfg)) 0 (locals0 cfg) in
  (cfg_epoch cfg <= 0 /\ r = (locals0 cfg, Next)) \/
  exists k, epoch r.1 = Some k /\ 0 <= k < cfg_epoch cfg /\
    (r.2 = Next -> k = cfg_epoch cfg - 1) /\
    model r.1 = k + (if raised w k at_train_model then 0 else 1) /\
    match r.2 with
    | Break => early_stop (earlystopping r.1) = true
    | Next => early_stop (earlystopping r.1) = false
    | Interrupt => exists s, sigint w = Some (in_epoch k s)
    end.
Proof.
  destruct (for_epoch_range (Z.to_nat (cfg_epoch cfg)) 0 (locals0 cfg))
    as [[Hn Hr]|(k & Hk & Hrange & Hnext & Hm & Hf)].
  - left. split; [lia|done].
  - right. exists k. split; [done|]. split; [lia|].
    split; [intros H; specialize (Hnext H); lia|]. split; [|done].
    rewrite Hm. simpl. lia.
Qed.

(** X5: the loop variable only takes values of [range(cfg.epoch)], and when
    the run leaves the [try] statement with it at [k], [train_model] has
    returned once for each of the epochs 0 to [k], the last one excepted when
    the signal arrived during its training pass.  No run trains more than
    [cfg.epoch] passes. *)
Theorem epochs_within_range k :
  epoch (locals (main cfg w)) = Some k ->
  0 <= k < cfg_epoch cfg /\
  model (locals (main cfg w)) = k + (if raised w k at_train_model then 0 else 1) /\
  model (locals (main cfg w)) <= cfg_epoch cfg.
Proof.
  destruct (main_try cfg w) as [_ Hl]. rewrite Hl. clear Hl. unfold try_block.
  case_bool_decide; [discriminate|].
  destruct loop_of_main as [[Hle Hr]|(k' & Hk' & Hrange & _ & Hm & _)].
  - rewrite Hr. case_bool_decide; discriminate.
  - destruct (for_epoch cfg w (Z.to_nat (cfg_epoch cfg)) 0 (locals0 cfg))
      as [l f]. simpl in Hk', Hm.
    unfold except_KeyboardInterrupt. rewrite Hk'.
    destruct f; try case_bool_decide; simpl; rewrite ?Hk'; intros [= <-];
      (split; [done|]); (split; [done|]);
      rewrite Hm; destruct (raised w k' at_train_model); lia.
Qed.

(** X6: with [cfg.epoch] at 0 or below, [range(cfg.epoch)] is empty: nothing
    is trained, no checkpoint is written, the loop variable stays unbound,
    and every such run ends without a report and with exit status 1, on the
    name [epoch] if the signal arrives inside the [try] statement and on
    [save_model_dir] otherwise. *)
Theorem no_epoch_configured :
  cfg_epoch cfg <= 0 ->
  let r := main cfg w in
  epoch (locals r) = None /\ model (locals r) = 0 /\ log_dir (locals r) = ∅ /\
  reports r = [] /\ exit_status r = 1 /\
  failure r = Some (UnboundLocalError
    (if bool_decide (sigint w = Some before_loop \/ sigint w = Some at_done)
     then "epoch" else "save_model_dir")).
Proof.
  intros Hle. unfold main, try_block.
  replace (Z.to_nat (cfg_epoch cfg)) with 0%nat by lia. cbn [for_epoch].
  destruct (decide (sigint w = Some before_loop)) as [Hb|Hb].
  - rewrite bool_decide_true by done. rewrite bool_decide_true by (by left). done.
  - rewrite (bool_decide_false _ Hb).
    destruct (decide (sigint w = Some at_done)) as [Hd|Hd].
    + rewrite bool_decide_true by done. rewrite bool_decide_true by (by right). done.
    + rewrite (bool_decide_false _ Hd).
      rewrite bool_decide_false by (intros [?|?]; done). done.
Qed.

(** X7: the interrupt handler itself fails, on the unbound name [epoch],
    exactly when the signal arrives before the loop has bound the loop
    variable: before the loop starts, or at line 82 of a run configured with
    no epoch. *)
Theorem handler_fails_iff_epoch_unbound :
  left_try (main cfg w) = uncaught (UnboundLocalError "epoch") <->
  sigint w = Some before_loop \/
  (sigint w = Some at_done /\ cfg_epoch cfg <= 0).
Proof.
  destruct (main_try cfg w) as [Ht _]. rewrite Ht. clear Ht.
  unfold try_block.
  destruct (decide (sigint w = Some before_loop)) as [Hb|Hb].
  { rewrite bool_decide_true by done. simpl. split; [by left|done]. }
  rewrite (bool_decide_false _ Hb).
  destruct loop_of_main as [[Hle Hr]|(k & Hk & Hrange & _ & _ & Hf)].
  - rewrite Hr. case_bool_decide; simpl.
    + split; [by right|done].
    + split; [discriminate|]. intros [?|[? ?]]; done.
  - destruct (for_epoch cfg w (Z.to_nat (cfg_epoch cfg)) 0 (locals0 cfg))
      as [l f]. simpl in Hk, Hf.
    unfold except_KeyboardInterrupt. rewrite Hk.
    destruct f; try case_bool_decide; simpl;
      (split; [discriminate|]); intros [?|[? ?]]; done || lia.
Qed.

(** X8: line 82 is still inside the [try] statement.  A signal that arrives
    there, after the loop, is handled like one inside the loop: whatever the
    loop had selected on lines 79-80, the run ends [INTERRUPTED] and the
    label and path selected are those one below the last value [k] of the
    loop variable; if the flag of the policy is clear, the loop ran all its
    epochs and that label is [cfg.epoch - 2]. *)
Theorem signal_at_done_overrides_selection :
  sigint w = Some at_done -> 0 < cfg_epoch cfg ->
  let r := main cfg w in
  left_try r = ended INTERRUPTED /\
  exists k, epoch (locals r) = Some k /\
    save_ep (locals r) = Some (k - 1) /\
    save_model_dir (locals r) = Some (epoch_pt (k - 1)) /\
    (early_stop (earlystopping (locals r)) = false -> k = cfg_epoch cfg - 1).
Proof.
  intros Hsig Hpos. destruct (main_try cfg w) as [Ht Hl]. simpl.
  rewrite Ht, Hl. clear Ht Hl. unfold try_block.
  rewrite bool_decide_false by (rewrite Hsig; discriminate).
  rewrite (bool_decide_true _ Hsig).
  destruct loop_of_main as [[Hle _]|(k & Hk & Hrange & Hnext & _ & Hf)]; [lia|].
  destruct (for_epoch cfg w (Z.to_nat (cfg_epoch cfg)) 0 (locals0 cfg))
    as [l f]. simpl in Hk, Hnext, Hf.
  assert (except_KeyboardInterrupt l = (select l (k - 1), ended INTERRUPTED)) as He
    by (unfold except_KeyboardInterrupt; by rewrite Hk).
  assert (f <> Interrupt) as Hni.
  { intros ->. destruct Hf as [s Hs]. rewrite Hsig in Hs. discriminate. }
  assert (early_stop (earlystopping l) = false -> k = cfg_epoch cfg - 1) as Hfull.
  { intros Hclear. destruct f; [by apply Hnext|congruence|done]. }
  destruct f; [| |done]; rewrite He; simpl;
    (split; [done|]); exists k; by repeat split.
Qed.

(** X9: a report is always made from the checkpoint it is named after, and a
    run never reports on two checkpoints.  Every [ConfusionMatrix] call of
    the reporting loop is handed the checkpoint file of the one label the run
    selected, and carries that label, with the split of its loader, in
    [save_name] and [save_dir_name]. *)
Theorem every_report_uses_the_selected_checkpoint (a : ConfusionMatrix_args) :
  a ∈ reports (main cfg w) ->
  exists ep, save_ep (locals (main cfg w)) = Some ep /\
    save_model_dir (locals (main cfg w)) = Some (epoch_pt ep) /\
    model_PATH a = epoch_pt ep /\
    ((test_loader_arg a = train_loader /\
      save_name a = "train_" +:+ format_05 ep /\
      save_dir_name a = "miss_train_" +:+ format_05 ep) \/
     (test_loader_arg a = val_loader /\
      save_name a = "val_" +:+ format_05 ep /\
      save_dir_name a = "miss_val_" +:+ format_05 ep) \/
     (test_loader_arg a = test_loader /\
      save_name a = "test_" +:+ format_05 ep /\
      save_dir_name a = "miss_test_" +:+ format_05 ep)).
Proof.
  intros Ha.
  assert (reports (main cfg w) = [] \/
          exists ep, save_ep (locals (main cfg w)) = Some ep /\
            save_model_dir (locals (main cfg w)) = Some (epoch_pt ep) /\
            reports (main cfg w) = three_reports ep (epoch_pt ep)) as [Hr|Hr].
  { destruct (left_try (main cfg w)) as [t|x] eqn:Ht.
    - destruct t.
      + right. destruct (main_selected cfg w _ Ht) as (ep & Hep & Hp & Hr & _);
          [done|]. by exists ep.
      + right. destruct (main_selected cfg w _ Ht) as (ep & Hep & Hp & Hr & _);
          [done|]. by exists ep.
      + left. by destruct (main_DONE cfg w Ht) as (_ & _ & Hr & _).
    - left. revert Ht. unfold main.
      destruct (try_block cfg w) as [l [t|y]]; [|done].
      by destruct (report_loop l enumerate_loaders). }
  - rewrite Hr in Ha. by apply elem_of_nil in Ha.
  - destruct Hr as (ep & Hep & Hp & Hr). rewrite Hr in Ha.
    exists ep. split; [done|]. split; [done|]. unfold three_reports in Ha.
    apply elem_of_cons in Ha as [->|Ha]; [split; [done|]; left; done|].
    apply elem_of_cons in Ha as [->|Ha]; [split; [done|]; right; left; done|].
    apply elem_of_cons in Ha as [->|Ha]; [split; [done|]; right; right; done|].
    by apply elem_of_nil in Ha.
Qed.

End LoopFacts.

(** ** The directory of the run *)

Section RunDirFacts.
Import PyFormat RunDir.

Lemma prefix_app (p s : string) : String.prefix p (p +:+ s) = true.
Proof.
  induction p as [|c p IH]; [by destruct s|].
  rewrite app_cons. simpl. by destruct (ascii_dec c c).
Qed.

Lemma app_assoc (a b c : string) : (a +:+ b) +:+ c = a +:+ b +:+ c.
Proof.
  induction a as [|x a IH]; [done|]. rewrite !app_cons. by rewrite IH.
Qed.

Lemma run_name_matches ymd id method :
  String.prefix (ymd +:+ "_") (run_name ymd id method) = true.
Proof. unfold run_name. rewrite <- app_assoc. apply prefix_app. Qed.

(** A run's own directory counts for the next run. *)
Lemma num_id_next logs ymd method :
  num_id (run_name ymd (num_id logs ymd) method :: logs) ymd = num_id logs ymd + 1.
Proof.
  unfold num_id, glob1. simpl List.filter. rewrite run_name_matches.
  simpl length. lia.
Qed.

Lemma digit_not_underscore d : pretty_N_char d <> "_"%char.
Proof. unfold pretty_N_char. by repeat case_match. Qed.

Lemma digits_only_app a b :
  digits_only a -> digits_only b -> digits_only (a +:+ b).
Proof.
  induction a as [|c a IH]; [done|].
  intros [Hc Ha] Hb. rewrite app_cons. split; [done|]. by apply IH.
Qed.

Lemma digits_only_zeros k : digits_only (zeros k).
Proof.
  induction k as [|k IH]; [done|]. split; [|done]. by exists 0%N.
Qed.

Lemma digits_only_pretty_N_go x s :
  digits_only s -> digits_only (pretty_N_go x s).
Proof.
  revert s. induction (N.lt_wf_0 x) as [x _ IH]; intros s Hs.
  destruct (decide (x = 0%N)) as [->|Hx]; [by rewrite pretty_N_go_0|].
  rewrite pretty_N_go_step by lia. apply IH.
  - apply N.div_lt; lia.
  - split; [|done]. exists (x `mod` 10)%N. split; [|done]. apply N.mod_lt. lia.
Qed.

Lemma digits_only_format_02 n : 0 <= n -> digits_only (format_02 n).
Proof.
  intros Hn. unfold format_02. destruct (Z.ltb_spec n 0) as [?|_]; [lia|].
  unfold zfill. apply digits_only_app; [apply digits_only_zeros|].
  unfold pretty, pretty_N. case_decide.
  - split; [|done]. by exists 0%N.
  - by apply digits_only_pretty_N_go.
Qed.

(** Digits up to the first underscore can be read back. *)
Lemma digits_field_inj a b r r' :
  digits_only a -> digits_only b ->
  a +:+ String "_"%char r = b +:+ String "_"%char r' -> a = b.
Proof.
  revert b. induction a as [|c a IH]; intros [|d b] Ha Hb E; [done| | |].
  - rewrite app_empty, app_cons in E. injection E as Hc _.
    destruct Hb as [(x & _ & ->) _]. by destruct (digit_not_underscore x).
  - rewrite app_empty, app_cons in E. injection E as Hc _.
    destruct Ha as [(x & _ & ->) _]. by destruct (digit_not_underscore x).
  - rewrite !app_cons in E. injection E as -> E.
    f_equal. apply (IH b); [apply Ha|apply Hb|done].
Qed.

Lemma format_02_inj n m : 0 <= n -> 0 <= m -> format_02 n = format_02 m -> n = m.
Proof.
  intros Hn Hm. unfold format_02.
  destruct (Z.ltb_spec n 0) as [?|_]; [lia|].
  destruct (Z.ltb_spec m 0) as [?|_]; [lia|].
  intros E. apply zfill_pretty_inj in E. lia.
Qed.

(** The name of a run's directory tells its number. *)
Lemma run_name_id ymd i j m m' :
  0 <= i -> 0 <= j -> run_name ymd i m = run_name ymd j m' -> i = j.
Proof.
  intros Hi Hj E. unfold run_name in E.
  apply (inj (String.app ymd)) in E. rewrite !app_cons, !app_empty in E.
  injection E as E.
  apply digits_field_inj in E; [|by apply digits_only_format_02..].
  by apply format_02_inj.
Qed.

Lemma num_id_pos logs ymd : 1 <= num_id logs ymd.
Proof. unfold num_id. lia. Qed.

Lemma glob1_after_runs ymd methods logs :
  glob1 (after_runs logs ymd methods) ymd =
  reverse (imap (fun i m => run_name ymd (num_id logs ymd + Z.of_nat i) m) methods)
  ++ glob1 logs ymd.
Proof.
  revert logs. induction methods as [|m ms IH]; intros logs; [done|].
  cbn [after_runs]. rewrite IH, num_id_next. cbn [imap].
  rewrite reverse_cons, <- (assoc_L (++)). f_equal.
  - f_equal. apply imap_ext. intros i x _. simpl. f_equal. lia.
  - unfold glob1 at 1. simpl List.filter. rewrite run_name_matches.
    simpl. by rewrite Z.add_0_r.
Qed.

Lemma NoDup_after_runs ymd methods logs :
  NoDup logs ->
  (forall x, In x (glob1 logs ymd) ->
     exists i m, 0 <= i < num_id logs ymd /\ x = run_name ymd i m) ->
  NoDup (after_runs logs ymd methods).
Proof.
  revert logs. induction methods as [|m ms IH]; intros logs Hnd Hinv; [done|].
  cbn [after_runs]. pose proof (num_id_pos logs ymd) as Hpos. apply IH.
  - apply NoDup_cons. split; [|done]. intros Hin.
    destruct (Hinv (run_name ymd (num_id logs ymd) m)) as (i & m' & Hi & E).
    { apply filter_In. split; [by apply list_elem_of_In|apply run_name_matches]. }
    apply run_name_id in E; lia.
  - intros x Hx. rewrite num_id_next. unfold glob1 in Hx.
    simpl List.filter in Hx. rewrite run_name_matches in Hx.
    destruct Hx as [<-|Hx].
    + exists (num_id logs ymd), m. split; [lia|done].
    + destruct (Hinv x Hx) as (i & m' & Hi & E). exists i, m'. split; [lia|done].
Qed.

(** X10: on a day that starts with no directory of that date in [logs], the
    runs made one after the other get the numbers 1, 2, 3, ... in turn,
    whatever their methods, and no two of them share a directory. *)
Theorem runs_of_a_day_get_distinct_directories logs ymd methods :
  NoDup logs -> glob1 logs ymd = [] ->
  NoDup (after_runs logs ymd methods) /\
  glob1 (after_runs logs ymd methods) ymd =
    reverse (imap (fun i m => run_name ymd (Z.of_nat i + 1) m) methods).
Proof.
  intros Hnd Hnone. split.
  - apply NoDup_after_runs; [done|]. rewrite Hnone. by intros x [].
  - rewrite glob1_after_runs, Hnone, app_nil_r. f_equal.
    apply imap_ext. intros i m _. simpl. f_equal.
    unfold num_id. rewrite Hnone. simpl. lia.
Qed.

Lemma without_other x y logs :
  y <> x -> without x (y :: logs) = y :: without x logs.
Proof.
  intros Hne. unfold without. simpl.
  by destruct (String.eqb_spec y x).
Qed.

Lemma without_absent x logs : x ∉ logs -> without x logs = logs.
Proof.
  induction logs as [|y logs IH]; [done|].
  intros Hnotin. apply not_elem_of_cons in Hnotin as [Hne Hnotin].
  rewrite without_other by done. by rewrite IH.
Qed.

(** Deleting one entry that the pattern selects takes one off the count. *)
Lemma glob1_without x logs ymd :
  NoDup logs -> x ∈ logs -> String.prefix (ymd +:+ "_") x = true ->
  S (length (glob1 (without x logs) ymd)) = length (glob1 logs ymd).
Proof.
  intros Hnd Hin Hx. induction logs as [|y logs IH]; [by apply elem_of_nil in Hin|].
  apply NoDup_cons in Hnd as [Hy Hnd].
  destruct (decide (y = x)) as [->|Hne].
  - unfold without at 1. simpl. rewrite String.eqb_refl. simpl.
    fold (without x logs). rewrite without_absent by done.
    unfold glob1. simpl. by rewrite Hx.
  - rewrite without_other by done.
    apply elem_of_cons in Hin as [->|Hin]; [done|].
    specialize (IH Hnd Hin). unfold glob1 in *. simpl.
    destruct (String.prefix (ymd +:+ "_") y); simpl; lia.
Qed.

(** X11: the number of a run is a count, not a maximum.  Once a run has
    created its directory, deleting any other directory of that day brings
    the count back to what that run saw: the next run of the same method
    computes the very same name, that of a directory which exists. *)
Theorem deleting_a_run_makes_next_name_collide logs ymd method x :
  NoDup logs -> x ∈ logs -> String.prefix (ymd +:+ "_") x = true ->
  x <> run_name ymd (num_id logs ymd) method ->
  let created := run_name ymd (num_id logs ymd) method in
  let logs' := without x (created :: logs) in
  created ∈ logs' /\ log_dir logs' ymd method = log_dir logs ymd method.
Proof.
  intros Hnd Hin Hx Hne created logs'. subst logs'.
  rewrite without_other by done. split; [apply elem_of_cons; by left|].
  unfold log_dir. do 2 f_equal.
  unfold num_id, glob1. simpl List.filter. fold created.
  unfold created at 1. rewrite run_name_matches. simpl length.
  fold (glob1 (without x logs) ymd). fold (glob1 logs ymd).
  rewrite <- (glob1_without x logs ymd) by done. lia.
Qed.

End RunDirFacts.

(** ** Worked runs for the properties above *)

(** The validation report of label 3 shares its names with itself only. *)
Lemma report_names_distinct_witness :
  let l := Controller.select
    (Controller.locals0 {| Controller.cfg_epoch := 10; Controller.cfg_patience := 2 |}) 3 in
  (1 = 1)%nat /\ Controller.save_ep l = Controller.save_ep l.
Proof.
  intros l.
  apply (report_names_distinct l l 1 1 Controller.val_loader Controller.val_loader
    {| Controller.test_loader_arg := Controller.val_loader;
       Controller.model_PATH := "epoch00003.pt";
       Controller.save_name := "val_00003";
       Controller.save_dir_name := "miss_val_00003" |}
    {| Controller.test_loader_arg := Controller.val_loader;
       Controller.model_PATH := "epoch00003.pt";
       Controller.save_name := "val_00003";
       Controller.save_dir_name := "miss_val_00003" |});
    [lia | lia | vm_compute; reflexivity | vm_compute; reflexivity | left; reflexivity].
Defined.

(** Ten epochs, patience 3, a loss that never moves: the run stops with the
    loop variable at 3, after four training passes. *)
Lemma epochs_within_range_witness :
  let cfg := {| Controller.cfg_epoch := 10; Controller.cfg_patience := 3 |} in
  let w := {| Controller.val_loss := Curves.flat; Controller.sigint := None |} in
  Controller.epoch (Controller.locals (Controller.main cfg w)) = Some 3 /\
  Controller.model (Controller.locals (Controller.main cfg w)) = 3 + 1.
Proof.
  intros cfg w.
  assert (Controller.epoch (Controller.locals (Controller.main cfg w)) = Some 3)
    as He by (vm_compute; reflexivity).
  split; [exact He|].
  apply (proj1 (proj2 (epochs_within_range cfg w 3 He))).
Defined.

(** No epoch configured, no signal. *)
Lemma no_epoch_configured_witness :
  let cfg := {| Controller.cfg_epoch := 0; Controller.cfg_patience := 2 |} in
  let w := {| Controller.val_loss := Curves.flat; Controller.sigint := None |} in
  Controller.reports (Controller.main cfg w) = [] /\
  Controller.exit_status (Controller.main cfg w) = 1.
Proof.
  intros cfg w.
  destruct (no_epoch_configured cfg w) as (_ & _ & _ & Hr & He & _); [simpl; lia|].
  split; [exact Hr|exact He].
Defined.

(** The signal before the loop: the handler fails. *)
Lemma handler_fails_iff_epoch_unbound_witness :
  Controller.left_try (Controller.main
    {| Controller.cfg_epoch := 3; Controller.cfg_patience := 5 |}
    {| Controller.val_loss := Curves.flat;
       Controller.sigint := Some Controller.before_loop |})
  = Controller.uncaught (Controller.UnboundLocalError "epoch").
Proof.
  apply (proj2 (handler_fails_iff_epoch_unbound
    {| Controller.cfg_epoch := 3; Controller.cfg_patience := 5 |}
    {| Controller.val_loss := Curves.flat;
       Controller.sigint := Some Controller.before_loop |})).
  left. reflexivity.
Defined.

(** Three epochs, patience 5, all run; the signal arrives at line 82 and the
    label selected is 1. *)
Lemma signal_at_done_overrides_selection_witness :
  let cfg := {| Controller.cfg_epoch := 3; Controller.cfg_patience := 5 |} in
  let w := {| Controller.val_loss := Curves.flat;
              Controller.sigint := Some Controller.at_done |} in
  Controller.left_try (Controller.main cfg w) = Controller.ended Controller.INTERRUPTED /\
  Controller.save_ep (Controller.locals (Controller.main cfg w)) = Some 1.
Proof.
  intros cfg w.
  destruct (signal_at_done_overrides_selection cfg w) as (Ht & k & Hk & Hep & _);
    [reflexivity | simpl; lia |].
  split; [exact Ht|].
  assert (k = 2) as -> by (vm_compute in Hk; congruence).
  exact Hep.
Defined.

(** Ten epochs, patience 3, a loss that never moves: the validation report
    is named after label 0 and made from the checkpoint of epoch 0. *)
Lemma every_report_uses_the_selected_checkpoint_witness :
  let cfg := {| Controller.cfg_epoch := 10; Controller.cfg_patience := 3 |} in
  let w := {| Controller.val_loss := Curves.flat; Controller.sigint := None |} in
  exists ep,
    Controller.save_ep (Controller.locals (Controller.main cfg w)) = Some ep /\
    PyFormat.epoch_pt 0 = PyFormat.epoch_pt ep.
Proof.
  intros cfg w.
  destruct (every_report_uses_the_selected_checkpoint cfg w
    {| Controller.test_loader_arg := Controller.val_loader;
       Controller.model_PATH := PyFormat.epoch_pt 0;
       Controller.save_name := "val_00000";
       Controller.save_dir_name := "miss_val_00000" |})
    as (ep & Hep & _ & Hpath & _).
  - apply (list_elem_of_lookup_2 _ 1%nat). vm_compute. reflexivity.
  - exists ep. split; [exact Hep|exact Hpath].
Defined.

(** Two runs of one method on a day whose [logs] holds only a stray file. *)
Lemma runs_of_a_day_get_distinct_directories_witness :
  RunDir.glob1 (RunDir.after_runs ["readme.txt"] "20240131" ["cnn"; "cnn"]) "20240131"
  = ["20240131_02_cnn"; "20240131_01_cnn"].
Proof.
  apply (proj2 (runs_of_a_day_get_distinct_directories
                  ["readme.txt"] "20240131" ["cnn"; "cnn"]
                  ltac:(apply NoDup_singleton) eq_refl)).
Defined.

(** Runs 01 and 02 exist, a third run creates 03, 01 is deleted: the next
    run computes 03 again. *)
Lemma deleting_a_run_makes_next_name_collide_witness :
  RunDir.log_dir
    (RunDir.without "20240131_01_cnn"
       ["20240131_03_cnn"; "20240131_01_cnn"; "20240131_02_cnn"])
    "20240131" "cnn"
  = "logs/20240131_03_cnn".
Proof.
  apply (proj2 (deleting_a_run_makes_next_name_collide
    ["20240131_01_cnn"; "20240131_02_cnn"] "20240131" "cnn" "20240131_01_cnn"
    ltac:(by apply (bool_decide_unpack _)) ltac:(by left)
    eq_refl ltac:(discriminate))).
Defined.
